(** * FixedMortgage: fixed-rate mortgage calculations (mortgage.py)

    A shallow embedding of [mortgage.py] and the proofs of its specification.

    Numbers.  The program computes with Python [int]s, modelled as [Z], and
    with [float]s.  The functions are embedded twice.

    - Exact reading: a [float] is an exact rational [Q], as in the data model
      of the specification (reals, exact arithmetic).  It carries the
      properties that hold whatever the rounding: which call is made with
      which arguments, which branch is taken, which line is printed, the
      division by zero at a rate of zero, and the runs whose arithmetic is far
      from any rounding boundary.
    - Binary64 reading, module [Binary64]: a [float] is an IEEE 754 binary64
      number (Rocq's primitive floats) and every operation rounds, as in the
      program that runs.  It decides the properties that depend on the value
      computed: there the two readings part, and the binary64 one is the
      program's.

    Exceptions.  A Python expression either yields a value or raises; this is
    the type [result].  A division raises [ZeroDivisionError] on a zero
    divisor, and so does zero raised to a negative power.

    Loops.  The [while] loop of [remaining_payments] has no bound of its own,
    so it is modelled with fuel: one unit per iteration, [None] when the fuel
    runs out before the loop condition fails. *)

From Stdlib Require Import ZArith QArith Qround Qpower Qfield.
From Stdlib Require Import List String Bool Lia Lqa.
From Stdlib Require PrimFloat FloatOps SpecFloat.
Import ListNotations.

Open Scope Q_scope.

(** ** Python values and exceptions *)

(** The argument of [sys.exit]: a status, or a message for the error stream. *)
Inductive exit_code : Type :=
| ExitStatus (status : Z)
| ExitMessage (msg : string).

Inductive exn : Type :=
| ZeroDivisionError
| ValueError (msg : string)
| SystemExit (code : exit_code).

Inductive result (A : Type) : Type :=
| Ok (a : A)
| Raise (e : exn).

Arguments Ok {A} a.
Arguments Raise {A} e.

Definition bind {A B : Type} (m : result A) (k : A -> result B) : result B :=
  match m with
  | Ok a => k a
  | Raise e => Raise e
  end.

Notation "x <- m ;; k" := (bind m (fun x => k))
  (at level 61, m at next level, right associativity).

(** [x / y] on numbers. *)
Definition truediv (x y : Q) : result Q :=
  if Qeq_bool y 0 then Raise ZeroDivisionError else Ok (x / y).

(** [x ** n] for an [int] exponent. *)
Definition pow (x : Q) (n : Z) : result Q :=
  if Qeq_bool x 0 && (n <? 0)%Z then Raise ZeroDivisionError else Ok (x ^ n).

(** [math.ceil]. *)
Definition ceil (x : Q) : Z := Qceiling x.

(** [min(a, b)]: the first argument unless the second is smaller. *)
Definition py_min (a b : Q) : Q :=
  if Qlt_le_dec b a then b else a.

(** ** Amortization math *)

Definition default_years : Z := 30.
Definition default_num_annual_payments : Z := 12.

(** [get_min_payment(mortgage_amount, annual_interest_rate, years,
    num_annual_payments)], lines 8-29. *)
Definition get_min_payment (mortgage_amount annual_interest_rate : Q)
    (years num_annual_payments : Z) : result Z :=
  r <- truediv annual_interest_rate (inject_Z num_annual_payments) ;;
  let n := (years * num_annual_payments)%Z in
  growth <- pow (1 + r) n ;;
  growth' <- pow (1 + r) n ;;
  minimum_payment <- truediv (mortgage_amount * r * growth) (growth' - 1) ;;
  Ok (ceil minimum_payment).

(** [interest_due(balance, annual_interest_rate, num_annual_payments)],
    lines 31-46. *)
Definition interest_due (balance annual_interest_rate : Q)
    (num_annual_payments : Z) : result Q :=
  r <- truediv annual_interest_rate (inject_Z num_annual_payments) ;;
  Ok (balance * r).

(** ** Payoff simulator *)

(** What one iteration of the loop of [remaining_payments] computes. *)
Record period : Type := Period {
  balance_before : Q;
  interest_due_value : Q;
  payment : Q;
  balance_after : Q
}.

(** The body of the [while] loop, lines 66-74. *)
Definition pay_period (balance annual_interest_rate : Q)
    (target_payment : option Q) (num_annual_payments : Z) : result period :=
  i <- interest_due balance annual_interest_rate num_annual_payments ;;
  p <- match target_payment with
       | None =>
           m <- get_min_payment balance annual_interest_rate
                  default_years default_num_annual_payments ;;
           Ok (inject_Z m)
       | Some t => Ok (py_min t (balance + i))
       end ;;
  Ok (Period balance i p (balance - (p - i))).

(** The [while balance > 0] loop, lines 64-76. *)
Fixpoint remaining_payments_loop (fuel : nat) (balance annual_interest_rate : Q)
    (target_payment : option Q) (num_annual_payments : Z) (payments : Z)
    : option (result Z) :=
  if Qlt_le_dec 0 balance then
    match fuel with
    | O => None
    | S fuel' =>
        match pay_period balance annual_interest_rate target_payment
                num_annual_payments with
        | Raise e => Some (Raise e)
        | Ok p =>
            remaining_payments_loop fuel' (balance_after p)
              annual_interest_rate target_payment num_annual_payments
              (payments + 1)%Z
        end
    end
  else Some (Ok payments).

(** [remaining_payments(balance, annual_interest_rate, target_payment,
    num_annual_payments)], lines 48-76. *)
Definition remaining_payments (fuel : nat) (balance annual_interest_rate : Q)
    (target_payment : option Q) (num_annual_payments : Z) : option (result Z) :=
  remaining_payments_loop fuel balance annual_interest_rate target_payment
    num_annual_payments 0%Z.

(** The periods the loop goes through, in order, as far as the fuel reaches. *)
Fixpoint schedule (fuel : nat) (balance annual_interest_rate : Q)
    (target_payment : option Q) (num_annual_payments : Z) : list period :=
  match fuel with
  | O => []
  | S fuel' =>
      if Qlt_le_dec 0 balance then
        match pay_period balance annual_interest_rate target_payment
                num_annual_payments with
        | Raise _ => []
        | Ok p =>
            p :: schedule fuel' (balance_after p) annual_interest_rate
                   target_payment num_annual_payments
        end
      else []
  end.

(** ** Calculation orchestrator *)

(** The lines [main] prints. *)
Inductive line : Type :=
| MinimumPaymentLine (minimum_payment : Z)
| TargetTooLowLine
| PayOffLine (target_payment : Q) (total_payments : Z).

(** How a run ends. *)
Inductive outcome : Type :=
| Returned
| Raised (e : exn)
| OutOfFuel.

(** The body of [main], lines 92-106, over the payoff simulator it calls: the
    lines printed, and how the run ends. *)
Definition main_with
    (simulate : Q -> Q -> option Q -> Z -> option (result Z))
    (mortgage_amount annual_interest_rate : Q)
    (years num_annual_payments : Z) (target_payment : option Q)
    : list line * outcome :=
  match get_min_payment mortgage_amount annual_interest_rate years
          num_annual_payments with
  | Raise e => ([], Raised e)
  | Ok minimum_payment =>
      let out := [MinimumPaymentLine minimum_payment] in
      let target_payment :=
        match target_payment with
        | None => inject_Z minimum_payment
        | Some t => t
        end in
      if Qlt_le_dec target_payment (inject_Z minimum_payment) then
        (out ++ [TargetTooLowLine], Returned)
      else
        match simulate mortgage_amount annual_interest_rate
                (Some target_payment) num_annual_payments with
        | None => (out, OutOfFuel)
        | Some (Raise e) => (out, Raised e)
        | Some (Ok total_payments) =>
            (out ++ [PayOffLine target_payment total_payments], Returned)
        end
  end.

(** [main(mortgage_amount, annual_interest_rate, years, num_annual_payments,
    target_payment)], lines 78-106: the simulator is [remaining_payments]. *)
Definition main (fuel : nat) (mortgage_amount annual_interest_rate : Q)
    (years num_annual_payments : Z) (target_payment : option Q)
    : list line * outcome :=
  main_with (remaining_payments fuel) mortgage_amount annual_interest_rate
    years num_annual_payments target_payment.

(** ** Command line front end *)

(** The namespace [parser.parse_args()] returns. *)
Record namespace : Type := Namespace {
  args_mortgage_amount : Q;
  args_annual_interest_rate : Q;
  args_years : Z;
  args_num_annual_payments : Z;
  args_target_payment : option Q
}.

(** Truth value of [args.target_payment]: [None] and zero are false. *)
Definition truthy (x : option Q) : bool :=
  match x with
  | None => false
  | Some q => negb (Qeq_bool q 0)
  end.

(** [a < b] as a test of the program. *)
Definition Qltb (a b : Q) : bool :=
  if Qlt_le_dec a b then true else false.

Section FrontEnd.

(** [ArgumentParser.parse_args] of the [argparse] library, for the parser
    that [parse_args] builds: from a list of arguments to a namespace, or an
    exit of the program. *)
Variable parser_parse_args : list string -> result namespace.

(** [parse_args(arglist)], lines 109-163.  The parser is called without
    arguments, so it reads [sys.argv[1:]]. *)
Definition parse_args (sys_argv : list string) (arglist : list string)
    : result namespace :=
  args <- parser_parse_args (tl sys_argv) ;;
  if Qltb (args_mortgage_amount args) 0 then
    Raise (ValueError "mortgage amount must be positive")
  else if negb (Qle_bool 0 (args_annual_interest_rate args)
                && Qle_bool (args_annual_interest_rate args) 1) then
    Raise (ValueError "annual interest rate must be between 0 and 1")
  else if (args_years args <? 1)%Z then
    Raise (ValueError "years must be positive")
  else if (args_num_annual_payments args <? 0)%Z then
    Raise (ValueError "number of payments per year must be positive")
  else if truthy (args_target_payment args)
          && match args_target_payment args with
             | Some t => Qltb t 0
             | None => false
             end then
    Raise (ValueError "target payment must be positive")
  else Ok args.

(** The script, lines 166-172: a [ValueError] of [parse_args] becomes
    [sys.exit(str(e))], anything else it raises goes through. *)
Definition script (fuel : nat) (sys_argv : list string) : list line * outcome :=
  match parse_args sys_argv (tl sys_argv) with
  | Raise (ValueError msg) => ([], Raised (SystemExit (ExitMessage msg)))
  | Raise e => ([], Raised e)
  | Ok args =>
      main fuel (args_mortgage_amount args) (args_annual_interest_rate args)
        (args_years args) (args_num_annual_payments args)
        (args_target_payment args)
  end.

End FrontEnd.

(** ** Definitions for the statements and proofs *)

(** The amortizing payment of the formula, as a rational. *)
Definition amortizing_payment (mortgage_amount annual_interest_rate : Q)
    (years num_annual_payments : Z) : Q :=
  let r := annual_interest_rate / inject_Z num_annual_payments in
  let n := (years * num_annual_payments)%Z in
  mortgage_amount * r * (1 + r) ^ n / ((1 + r) ^ n - 1).


(** ** The binary64 reading *)

(** The same functions with [float] as IEEE 754 binary64: [+], [-], [*] and [/]
    round to nearest, ties to even; a comparison with a not-a-number is
    false.  [**] on an [int] exponent follows the interpreter: it decides the
    cases of an exponent of zero, of a base that is not a number, infinite,
    zero or of absolute value one, and leaves the others to [pow] of the C
    library, which is not part of the program: a parameter. *)
Module Binary64.

Import PrimFloat FloatOps SpecFloat.
#[local] Open Scope float_scope.

Inductive exn : Type :=
| ZeroDivisionError
| OverflowError
| ValueError.

Inductive result (A : Type) : Type :=
| Ok (a : A)
| Raise (e : exn).

Arguments Ok {A} a.
Arguments Raise {A} e.

Definition bind {A B : Type} (m : result A) (k : A -> result B) : result B :=
  match m with
  | Ok a => k a
  | Raise e => Raise e
  end.

#[local] Notation "x <~ m ;; k" := (bind m (fun x => k))
  (at level 61, m at next level, right associativity).

(** The number a finite float stands for. *)
Definition float_value (x : float) : option Q :=
  match Prim2SF x with
  | S754_zero _ => Some 0%Q
  | S754_finite s m e => Some (inject_Z (cond_Zopp s (Zpos m)) * 2 ^ e)%Q
  | S754_infinity _ | S754_nan => None
  end.

(** An [int] where a [float] is needed: the nearest float, ties to even, and
    [OverflowError] beyond the largest one. *)
Definition float_of_int (n : Z) : result float :=
  let x := SF2Prim (binary_normalize prec emax n 0 false) in
  if is_infinity x then Raise OverflowError else Ok x.

(** [x / y]. *)
Definition truediv (x y : float) : result float :=
  if y =? 0 then Raise ZeroDivisionError else Ok (x / y).

(** Whether a float is an odd integer. *)
Definition is_odd_integer (y : float) : bool :=
  match float_value y with
  | Some q => (Zpos (Qden (Qred q)) =? 1)%Z && Z.odd (Qnum (Qred q))
  | None => false
  end.

(** [math.ceil]: an [int], or an exception where there is none. *)
Definition ceil (x : float) : result Z :=
  match Prim2SF x with
  | S754_nan => Raise ValueError
  | S754_infinity _ => Raise OverflowError
  | S754_zero _ => Ok 0%Z
  | S754_finite s m e =>
      Ok (Qceiling (inject_Z (cond_Zopp s (Zpos m)) * 2 ^ e)%Q)
  end.

(** [min(a, b)]: the first argument unless the second is smaller. *)
Definition py_min (a b : float) : float :=
  if b <? a then b else a.

Section Libm.

(** [pow] of the C library, on a positive finite base other than 1 and a
    finite exponent other than 0. *)
Variable libm_pow : float -> float -> float.

(** [x ** n] for an [int] exponent. *)
Definition pow (x : float) (n : Z) : result float :=
  y <~ float_of_int n ;;
  if y =? 0 then Ok 1
  else if is_nan x then Ok x
  else if is_infinity x then
    Ok (if 0 <? y then (if is_odd_integer y then x else abs x)
        else (if is_odd_integer y && (x <? 0) then -0 else 0))
  else if x =? 0 then
    if y <? 0 then Raise ZeroDivisionError
    else Ok (if is_odd_integer y then x else 0)
  else
    let negate := (x <? 0) && is_odd_integer y in
    if abs x =? 1 then Ok (if negate then -1 else 1)
    else
      let v := libm_pow (abs x) y in
      if is_infinity v then Raise OverflowError
      else Ok (if negate then - v else v).

(** [get_min_payment], lines 8-29. *)
Definition get_min_payment (mortgage_amount annual_interest_rate : float)
    (years num_annual_payments : Z) : result Z :=
  nf <~ float_of_int num_annual_payments ;;
  r <~ truediv annual_interest_rate nf ;;
  let n := (years * num_annual_payments)%Z in
  growth <~ pow (1 + r) n ;;
  growth' <~ pow (1 + r) n ;;
  minimum_payment <~ truediv (mortgage_amount * r * growth) (growth' - 1) ;;
  ceil minimum_payment.

(** [interest_due], lines 31-46. *)
Definition interest_due (balance annual_interest_rate : float)
    (num_annual_payments : Z) : result float :=
  nf <~ float_of_int num_annual_payments ;;
  r <~ truediv annual_interest_rate nf ;;
  Ok (balance * r).

(** What one iteration of the loop of [remaining_payments] computes. *)
Record period : Type := Period {
  balance_before : float;
  interest_due_value : float;
  payment : float;
  balance_after : float
}.

(** The body of the [while] loop, lines 66-74.  Without a target payment the
    payment is the [int] of [get_min_payment], taken as a float in the
    subtraction. *)
Definition pay_period (balance annual_interest_rate : float)
    (target_payment : option float) (num_annual_payments : Z) : result period :=
  i <~ interest_due balance annual_interest_rate num_annual_payments ;;
  p <~ match target_payment with
       | None =>
           m <~ get_min_payment balance annual_interest_rate 30 12 ;;
           float_of_int m
       | Some t => Ok (py_min t (balance + i))
       end ;;
  Ok (Period balance i p (balance - (p - i))).

(** The [while balance > 0] loop, lines 64-76. *)
Fixpoint remaining_payments_loop (fuel : nat)
    (balance annual_interest_rate : float) (target_payment : option float)
    (num_annual_payments : Z) (payments : Z) : option (result Z) :=
  if 0 <? balance then
    match fuel with
    | O => None
    | S fuel' =>
        match pay_period balance annual_interest_rate target_payment
                num_annual_payments with
        | Raise e => Some (Raise e)
        | Ok p =>
            remaining_payments_loop fuel' (balance_after p)
              annual_interest_rate target_payment num_annual_payments
              (payments + 1)%Z
        end
    end
  else Some (Ok payments).

(** [remaining_payments], lines 48-76. *)
Definition remaining_payments (fuel : nat)
    (balance annual_interest_rate : float) (target_payment : option float)
    (num_annual_payments : Z) : option (result Z) :=
  remaining_payments_loop fuel balance annual_interest_rate target_payment
    num_annual_payments 0%Z.

End Libm.

End Binary64.

(** * Properties *)

(** ** Arithmetic of the amortization formula *)

Lemma truediv_ok (x y : Q) : ~ y == 0 -> truediv x y = Ok (x / y).
Proof.
  intros Hy. unfold truediv.
  destruct (Qeq_bool y 0) eqn:E; [|reflexivity].
  apply Qeq_bool_eq in E. contradiction.
Qed.

Lemma truediv_zero (x y : Q) : y == 0 -> truediv x y = Raise ZeroDivisionError.
Proof.
  intros Hy. unfold truediv. now rewrite (Qeq_eq_bool _ _ Hy).
Qed.

Lemma pow_ok (x : Q) (n : Z) : (0 <= n)%Z -> pow x n = Ok (x ^ n).
Proof.
  intros Hn. unfold pow.
  replace (n <? 0)%Z with false by (symmetry; apply Z.ltb_ge; exact Hn).
  now rewrite andb_false_r.
Qed.

Lemma inject_Z_pos (z : Z) : (1 <= z)%Z -> 0 < inject_Z z.
Proof.
  intros Hz. change 0 with (inject_Z 0). rewrite <- Zlt_Qlt. lia.
Qed.

Lemma inject_Z_nonzero (z : Z) : (1 <= z)%Z -> ~ inject_Z z == 0.
Proof.
  intros Hz H. apply inject_Z_pos in Hz. rewrite H in Hz. discriminate Hz.
Qed.

(** The rate per payment is positive when the annual rate is. *)
Lemma period_rate_pos (rate : Q) (F : Z) :
  0 < rate -> (1 <= F)%Z -> 0 < rate / inject_Z F.
Proof.
  intros Hr HF. apply Qlt_shift_div_l.
  - now apply inject_Z_pos.
  - now rewrite Qmult_0_l.
Qed.

(** Compound growth over at least one period exceeds one. *)
Lemma growth_gt_1 (r : Q) (n : Z) : 0 < r -> (1 <= n)%Z -> 1 < (1 + r) ^ n.
Proof.
  intros Hr Hn. apply Qpower_1_lt; [lra | lia].
Qed.

Lemma get_min_payment_formula (P rate : Q) (T F : Z) :
  0 < rate -> (1 <= T)%Z -> (1 <= F)%Z ->
  get_min_payment P rate T F = Ok (Qceiling (amortizing_payment P rate T F)).
Proof.
  intros Hr HT HF. unfold get_min_payment, amortizing_payment.
  rewrite truediv_ok by now apply inject_Z_nonzero.
  cbn [bind]. rewrite pow_ok by nia. cbn [bind].
  rewrite truediv_ok; [reflexivity|].
  pose proof (growth_gt_1 (rate / inject_Z F) (T * F)
                (period_rate_pos rate F Hr HF) ltac:(nia)) as Hg.
  intros H. lra.
Qed.

(** In exact arithmetic: for a positive amount, an annual rate strictly
    between 0 and 1, a term of at least one year and at least one payment per
    year, the formula raises nothing and its ceiling is returned, the least
    integer that is not below its value.  (In binary64 this is lost, see
    [get_min_payment_not_exact_ceiling].) *)
Lemma exact_get_min_payment_is_ceiling (mortgage_amount annual_interest_rate : Q)
    (years num_annual_payments : Z) :
  0 < mortgage_amount ->
  0 < annual_interest_rate -> annual_interest_rate < 1 ->
  (1 <= years)%Z -> (1 <= num_annual_payments)%Z ->
  let r := annual_interest_rate / inject_Z num_annual_payments in
  let n := (years * num_annual_payments)%Z in
  let formula := mortgage_amount * r * (1 + r) ^ n / ((1 + r) ^ n - 1) in
  exists m : Z,
    get_min_payment mortgage_amount annual_interest_rate years
      num_annual_payments = Ok m /\
    m = Qceiling formula /\
    formula <= inject_Z m /\ inject_Z m < formula + 1 /\
    (forall k : Z, formula <= inject_Z k -> (m <= k)%Z).
Proof.
  intros HP Hr0 Hr1 HT HF r n formula.
  exists (Qceiling formula). split; [|split; [reflexivity|split; [|split]]].
  - exact (get_min_payment_formula mortgage_amount annual_interest_rate
             years num_annual_payments Hr0 HT HF).
  - apply Qle_ceiling.
  - pose proof (Qceiling_lt formula) as H.
    unfold Z.sub in H. rewrite inject_Z_plus, inject_Z_opp in H.
    change (inject_Z 1) with 1 in H. lra.
  - intros k Hk. apply Qceiling_resp_le in Hk. now rewrite Qceiling_Z in Hk.
Qed.

(** ** Payoff within the term *)

Lemma Qpower_succ (q : Q) (k : nat) :
  q ^ Z.of_nat (S k) == q * q ^ Z.of_nat k.
Proof.
  rewrite Nat2Z.inj_succ, <- Z.add_1_l.
  rewrite Qpower_plus' by lia. now rewrite Qpower_1_r.
Qed.

Lemma growth_ge_1 (r : Q) (k : nat) : 0 <= r -> 1 <= (1 + r) ^ Z.of_nat k.
Proof.
  intros Hr. apply Qpower_1_le; [lra | lia].
Qed.

(** [(1+r)^k - 1 <= k r (1+r)^k]: interest makes the payment at least the
    plain division of the principal over the periods. *)
Lemma geometric_bound (r : Q) (k : nat) :
  0 <= r ->
  (1 + r) ^ Z.of_nat k - 1 <= inject_Z (Z.of_nat k) * r * (1 + r) ^ Z.of_nat k.
Proof.
  intros Hr. induction k as [|k IH].
  - change (Z.of_nat 0) with 0%Z. change ((1 + r) ^ 0) with 1.
    change (inject_Z 0) with 0. lra.
  - rewrite Qpower_succ. rewrite Nat2Z.inj_succ, <- Z.add_1_l, inject_Z_plus.
    change (inject_Z 1) with 1.
    pose proof (growth_ge_1 r k Hr) as Hx.
    assert (0 <= inject_Z (Z.of_nat k)) as Hk
      by (change 0 with (inject_Z 0); rewrite <- Zle_Qle; lia).
    set (x := (1 + r) ^ Z.of_nat k) in *. set (c := inject_Z (Z.of_nat k)) in *.
    nra.
Qed.

(** The amortizing payment covers the principal divided over the periods. *)
Lemma amortizing_payment_lower_bound (P rate : Q) (T F : Z) :
  0 < P -> 0 < rate -> (1 <= T)%Z -> (1 <= F)%Z ->
  P / inject_Z (T * F) <= amortizing_payment P rate T F.
Proof.
  intros HP Hr HT HF. unfold amortizing_payment.
  pose proof (period_rate_pos rate F Hr HF) as Hr'.
  set (r := rate / inject_Z F) in *.
  assert (1 <= T * F)%Z as Hn by nia.
  pose proof (growth_gt_1 r (T * F) Hr' Hn) as Hg.
  pose proof (geometric_bound r (Z.to_nat (T * F)) ltac:(lra)) as Hb.
  rewrite Z2Nat.id in Hb by lia.
  pose proof (inject_Z_pos (T * F) Hn) as Hc.
  set (x := (1 + r) ^ (T * F)) in *. set (c := inject_Z (T * F)) in *.
  apply Qle_shift_div_l; [lra|].
  setoid_replace (P / c * (x - 1)) with (P * (x - 1) / c)
    by (field; intros H0; rewrite H0 in Hc; discriminate Hc).
  apply Qle_shift_div_r; [lra|].
  nra.
Qed.

(** The same test, read off. *)
Lemma py_min_cases (a b : Q) :
  (b < a /\ py_min a b = b) \/ (a <= b /\ py_min a b = a).
Proof.
  unfold py_min. destruct (Qlt_le_dec b a); [left | right]; now split.
Qed.

Lemma interest_due_ok (balance rate : Q) (F : Z) :
  (1 <= F)%Z -> interest_due balance rate F = Ok (balance * (rate / inject_Z F)).
Proof.
  intros HF. unfold interest_due.
  now rewrite truediv_ok by now apply inject_Z_nonzero.
Qed.

Lemma pay_period_target (balance rate t : Q) (F : Z) :
  (1 <= F)%Z ->
  pay_period balance rate (Some t) F =
  let i := balance * (rate / inject_Z F) in
  let p := py_min t (balance + i) in
  Ok (Period balance i p (balance - (p - i))).
Proof.
  intros HF. unfold pay_period. now rewrite interest_due_ok.
Qed.

(** If the balance is at most the present value of [j] payments of [t], the
    loop ends within [j] more iterations. *)
Lemma loop_pays_off (rate t : Q) (F : Z) :
  0 < rate -> (1 <= F)%Z ->
  let r := rate / inject_Z F in
  forall (j : nat) (b : Q) (cnt : Z),
    b * r * (1 + r) ^ Z.of_nat j <= t * ((1 + r) ^ Z.of_nat j - 1) ->
    exists k : Z,
      remaining_payments_loop j b rate (Some t) F cnt = Some (Ok k) /\
      (cnt <= k <= cnt + Z.of_nat j)%Z.
Proof.
  intros Hrate HF r.
  pose proof (period_rate_pos rate F Hrate HF) as Hr. fold r in Hr.
  induction j as [|j IH]; intros b cnt Hinv.
  - change (Z.of_nat 0) with 0%Z in *. change ((1 + r) ^ 0) with 1 in Hinv.
    cbn [remaining_payments_loop].
    destruct (Qlt_le_dec 0 b) as [Hb|Hb].
    + exfalso. nra.
    + exists cnt. split; [reflexivity | lia].
  - cbn [remaining_payments_loop].
    destruct (Qlt_le_dec 0 b) as [Hb|Hb].
    + rewrite pay_period_target by exact HF. cbn zeta. fold r.
      cbn [balance_after].
      rewrite Qpower_succ in Hinv.
      pose proof (growth_ge_1 r j ltac:(lra)) as Hx.
      set (x := (1 + r) ^ Z.of_nat j) in *.
      destruct (IH (b - (py_min t (b + b * r) - b * r)) (cnt + 1)%Z) as (k & Hk & Hle).
      * destruct (py_min_cases t (b + b * r)) as [[Hc ->]|[Hc ->]].
        -- assert (0 <= t) by nra. nra.
        -- nra.
      * exists k. split; [exact Hk | lia].
    + exists cnt. split; [reflexivity | lia].
Qed.

(** More fuel does not change what the loop returns. *)
Lemma remaining_payments_loop_fuel_mono (rate : Q) (target : option Q) (F : Z) :
  forall (fuel fuel' : nat) (b : Q) (cnt : Z) (v : result Z),
    (fuel <= fuel')%nat ->
    remaining_payments_loop fuel b rate target F cnt = Some v ->
    remaining_payments_loop fuel' b rate target F cnt = Some v.
Proof.
  induction fuel as [|fuel IH]; intros fuel' b cnt v Hle Hrun.
  - cbn [remaining_payments_loop] in Hrun.
    destruct fuel'; cbn [remaining_payments_loop];
      destruct (Qlt_le_dec 0 b); try discriminate; exact Hrun.
  - destruct fuel' as [|fuel']; [lia|].
    cbn [remaining_payments_loop] in *.
    destruct (Qlt_le_dec 0 b); [|exact Hrun].
    destruct (pay_period b rate target F); [|exact Hrun].
    apply IH; [lia | exact Hrun].
Qed.

(** The count the loop returns is the number of periods of its schedule. *)
Lemma remaining_payments_loop_counts (rate : Q) (target : option Q) (F : Z) :
  forall (fuel : nat) (b : Q) (cnt k : Z),
    remaining_payments_loop fuel b rate target F cnt = Some (Ok k) ->
    k = (cnt + Z.of_nat (List.length (schedule fuel b rate target F)))%Z.
Proof.
  induction fuel as [|fuel IH]; intros b cnt k Hrun;
    cbn [remaining_payments_loop schedule] in *.
  - destruct (Qlt_le_dec 0 b); [discriminate|].
    injection Hrun as <-. cbn. lia.
  - destruct (Qlt_le_dec 0 b).
    + destruct (pay_period b rate target F) as [p|e]; [|discriminate].
      apply IH in Hrun. cbn [List.length]. lia.
    + injection Hrun as <-. cbn. lia.
Qed.

(** In exact arithmetic: for principal P > 0, rate 0 < r < 1, term T >= 1 and
    frequency F >= 1, the minimum payment is a positive integer that is at
    least P / (T * F), and the loop run with exactly that payment as the
    target payment ends after at most T * F periods.  (In binary64 it can
    take more, see [min_payment_overruns_term].) *)
Lemma exact_min_payment_pays_off_within_term (P rate : Q) (T F : Z) :
  0 < P -> 0 < rate -> rate < 1 -> (1 <= T)%Z -> (1 <= F)%Z ->
  exists m : Z,
    get_min_payment P rate T F = Ok m /\
    (0 < m)%Z /\
    P / inject_Z (T * F) <= inject_Z m /\
    exists k : Z,
      (0 <= k <= T * F)%Z /\
      k = Z.of_nat (List.length (schedule (Z.to_nat (T * F)) P rate
                              (Some (inject_Z m)) F)) /\
      forall fuel : nat,
        (Z.to_nat (T * F) <= fuel)%nat ->
        remaining_payments fuel P rate (Some (inject_Z m)) F = Some (Ok k).
Proof.
  intros HP Hr0 Hr1 HT HF.
  pose proof (amortizing_payment_lower_bound P rate T F HP Hr0 HT HF) as Hlow.
  pose proof (Qle_ceiling (amortizing_payment P rate T F)) as Hceil.
  assert (1 <= T * F)%Z as Hn by nia.
  assert (0 < P / inject_Z (T * F)) as Hpos.
  { apply Qlt_shift_div_l; [now apply inject_Z_pos | lra]. }
  set (m := Qceiling (amortizing_payment P rate T F)) in *.
  exists m. split; [|split; [|split]].
  - now apply get_min_payment_formula.
  - rewrite Zlt_Qlt. change (inject_Z 0) with 0. lra.
  - lra.
  - pose proof (period_rate_pos rate F Hr0 HF) as Hr.
    pose proof (growth_gt_1 (rate / inject_Z F) (T * F) Hr Hn) as Hg.
    destruct (loop_pays_off rate (inject_Z m) F Hr0 HF (Z.to_nat (T * F)) P 0%Z)
      as (k & Hk & Hle).
    { rewrite Z2Nat.id by lia. unfold amortizing_payment in Hceil.
      set (r := rate / inject_Z F) in *. set (x := (1 + r) ^ (T * F)) in *.
      apply (Qmult_le_compat_r _ _ (x - 1)) in Hceil; [|lra].
      setoid_replace (P * r * x / (x - 1) * (x - 1)) with (P * r * x) in Hceil
        by (field; lra).
      exact Hceil. }
    exists k. split; [|split].
    + rewrite Z2Nat.id in Hle by lia. lia.
    + apply remaining_payments_loop_counts in Hk. lia.
    + intros fuel Hfuel. unfold remaining_payments.
      now apply (remaining_payments_loop_fuel_mono rate _ F (Z.to_nat (T * F))).
Qed.

(** ** A payment that does not cover the interest *)

(** The loop has no guard: from a positive balance whose interest is at least
    the target payment it goes on for as long as it has fuel. *)
Lemma loop_never_ends (rate t : Q) (F : Z) :
  0 <= rate -> (1 <= F)%Z ->
  forall (fuel : nat) (b : Q) (cnt : Z),
    0 < b -> t <= b * (rate / inject_Z F) ->
    remaining_payments_loop fuel b rate (Some t) F cnt = None.
Proof.
  intros Hrate HF.
  assert (0 <= rate / inject_Z F) as Hr.
  { apply Qle_shift_div_l; [now apply inject_Z_pos | now rewrite Qmult_0_l]. }
  set (r := rate / inject_Z F) in *.
  induction fuel as [|fuel IH]; intros b cnt Hb Ht;
    cbn [remaining_payments_loop];
    destruct (Qlt_le_dec 0 b) as [_|Hb']; try reflexivity; try lra.
  rewrite pay_period_target by exact HF. cbn zeta. fold r. cbn [balance_after].
  destruct (py_min_cases t (b + b * r)) as [[Hc ->]|[Hc ->]].
  - exfalso. lra.
  - apply IH; nra.
Qed.

(** C3: [remaining_payments] has no guard against a payment that does not
    exceed the interest.  With a balance of 1024, an annual rate of 1/2 paid
    once a year and a target payment of 512, the interest due is 512, so the
    payment does not exceed it; [remaining_payments] then neither returns nor
    raises, whatever the fuel: no "payment too low" condition is raised. *)
Lemma remaining_payments_no_guard_example :
  (exists due : Q,
     interest_due 1024 (1 # 2) 1 = Ok due /\ due == 512 /\ 512 <= due) /\
  ~ (exists (fuel : nat) (e : exn),
       remaining_payments fuel 1024 (1 # 2) (Some 512) 1 = Some (Raise e)) /\
  forall fuel : nat, remaining_payments fuel 1024 (1 # 2) (Some 512) 1 = None.
Proof.
  assert (forall fuel : nat,
            remaining_payments fuel 1024 (1 # 2) (Some 512) 1 = None) as Hnone.
  { intros fuel. unfold remaining_payments.
    apply loop_never_ends; [lra | lia | reflexivity | ].
    vm_compute. discriminate. }
  split; [|split; [|exact Hnone]].
  { eexists. split; [reflexivity|]. split; [reflexivity | discriminate]. }
  intros (fuel & e & H). rewrite Hnone in H. discriminate H.
Qed.

(** ** A rate of zero *)

(** With a rate of zero the growth factor is one and the formula divides by
    zero. *)
Lemma get_min_payment_rate_0 (mortgage_amount : Q)
    (years num_annual_payments : Z) :
  get_min_payment mortgage_amount 0 years num_annual_payments
  = Raise ZeroDivisionError.
Proof.
  unfold get_min_payment, truediv at 1.
  destruct (Qeq_bool (inject_Z num_annual_payments) 0) eqn:EF; [reflexivity|].
  cbn [bind].
  assert (1 + 0 / inject_Z num_annual_payments == 1) as H1.
  { unfold Qdiv. rewrite Qmult_0_l. reflexivity. }
  assert (pow (1 + 0 / inject_Z num_annual_payments) (years * num_annual_payments)
          = Ok ((1 + 0 / inject_Z num_annual_payments)
                  ^ (years * num_annual_payments))) as ->.
  { unfold pow.
    replace (Qeq_bool (1 + 0 / inject_Z num_annual_payments) 0) with false;
      [reflexivity|].
    symmetry. rewrite H1. reflexivity. }
  cbn [bind]. rewrite truediv_zero; [reflexivity|].
  rewrite H1, Qpower_1. reflexivity.
Qed.

(** C4: with an annual rate of 0, [get_min_payment] raises
    [ZeroDivisionError] for every amount, term and number of payments, where
    the specification asks for [ceil(principal / (term * frequency))]; for
    1000 over 30 years of 12 payments that would be 3. *)
Theorem get_min_payment_zero_rate_raises :
  (forall (mortgage_amount : Q) (years num_annual_payments : Z),
     get_min_payment mortgage_amount 0 years num_annual_payments
     = Raise ZeroDivisionError) /\
  get_min_payment 1000 0 30 12 <> Ok (Qceiling (1000 / inject_Z (30 * 12))) /\
  Qceiling (1000 / inject_Z (30 * 12)) = 3%Z.
Proof.
  split; [exact get_min_payment_rate_0|]. split; [|reflexivity].
  rewrite get_min_payment_rate_0. discriminate.
Qed.

(** A rate of zero passes the validation of [parse_args], and the script then
    ends in the [ZeroDivisionError] of [get_min_payment], nothing printed. *)
Lemma script_zero_rate (parser_parse_args : list string -> result namespace)
    (sys_argv : list string) (P : Q) (T F : Z) (target : option Q) (fuel : nat) :
  parser_parse_args (tl sys_argv) = Ok (Namespace P 0 T F target) ->
  0 <= P -> (1 <= T)%Z -> (0 <= F)%Z ->
  match target with Some t => 0 <= t | None => True end ->
  parse_args parser_parse_args sys_argv (tl sys_argv)
    = Ok (Namespace P 0 T F target) /\
  script parser_parse_args fuel sys_argv = ([], Raised ZeroDivisionError).
Proof.
  intros Hparse HP HT HF Htarget.
  assert (parse_args parser_parse_args sys_argv (tl sys_argv)
          = Ok (Namespace P 0 T F target)) as Hargs.
  { unfold parse_args. rewrite Hparse. cbn [bind].
    cbn [args_mortgage_amount args_annual_interest_rate args_years
         args_num_annual_payments args_target_payment].
    unfold Qltb at 1. destruct (Qlt_le_dec P 0); [lra|].
    cbn [Qle_bool Qnum Qden andb negb].
    replace (T <? 1)%Z with false by (symmetry; apply Z.ltb_ge; lia).
    replace (F <? 0)%Z with false by (symmetry; apply Z.ltb_ge; lia).
    destruct target as [t|]; [|reflexivity].
    unfold Qltb. destruct (Qlt_le_dec t 0); [lra|].
    now rewrite andb_false_r. }
  split; [exact Hargs|].
  unfold script. rewrite Hargs.
  cbn [args_mortgage_amount args_annual_interest_rate args_years
       args_num_annual_payments args_target_payment].
  unfold main, main_with. now rewrite get_min_payment_rate_0.
Qed.

(** ** The payment of each period *)

(** C5: in [remaining_payments] without a target payment, the payment of every
    period is the minimum payment computed for the balance of that period with
    a term of 30 years and 12 payments a year, whatever number of payments per
    year the caller passed. *)
Theorem no_target_payment_uses_defaults (fuel : nat)
    (balance annual_interest_rate : Q) (num_annual_payments : Z) :
  Forall (fun p : period =>
            exists m : Z,
              get_min_payment (balance_before p) annual_interest_rate 30 12
                = Ok m /\
              payment p = inject_Z m)
    (schedule fuel balance annual_interest_rate None num_annual_payments).
Proof.
  revert balance. induction fuel as [|fuel IH]; intros balance;
    cbn [schedule]; [constructor|].
  destruct (Qlt_le_dec 0 balance); [|constructor].
  destruct (pay_period balance annual_interest_rate None num_annual_payments)
    as [p|e] eqn:Hp; [|constructor].
  constructor; [|apply IH].
  unfold pay_period in Hp.
  destruct (interest_due balance annual_interest_rate num_annual_payments)
    as [i|]; [|discriminate].
  cbn [bind] in Hp. unfold default_years, default_num_annual_payments in Hp.
  destruct (get_min_payment balance annual_interest_rate 30 12)
    as [m|] eqn:Hm; [|discriminate].
  cbn [bind] in Hp. injection Hp as <-.
  exists m. now split.
Qed.

(** ** The orchestrator's guard *)

(** C6: when the target payment supplied is strictly below the minimum payment
    computed, [main] prints the minimum payment and the warning and returns;
    the payoff simulator is not consulted (the result is the same for every
    simulator in its place, and for every amount of fuel, none included), and
    no line with a payment count is printed. *)
Theorem main_target_below_minimum (mortgage_amount annual_interest_rate : Q)
    (years num_annual_payments : Z) (target_payment : Q) (minimum_payment : Z) :
  get_min_payment mortgage_amount annual_interest_rate years
    num_annual_payments = Ok minimum_payment ->
  target_payment < inject_Z minimum_payment ->
  (forall simulate,
     main_with simulate mortgage_amount annual_interest_rate years
       num_annual_payments (Some target_payment)
     = ([MinimumPaymentLine minimum_payment; TargetTooLowLine], Returned)) /\
  (forall fuel : nat,
     main fuel mortgage_amount annual_interest_rate years num_annual_payments
       (Some target_payment)
     = ([MinimumPaymentLine minimum_payment; TargetTooLowLine], Returned)) /\
  (forall (fuel : nat) (t : Q) (n : Z),
     ~ In (PayOffLine t n)
         (fst (main fuel mortgage_amount annual_interest_rate years
                 num_annual_payments (Some target_payment)))).
Proof.
  intros Hmin Hlt.
  assert (forall simulate,
            main_with simulate mortgage_amount annual_interest_rate years
              num_annual_payments (Some target_payment)
            = ([MinimumPaymentLine minimum_payment; TargetTooLowLine], Returned))
    as Hwith.
  { intros simulate. unfold main_with. rewrite Hmin.
    destruct (Qlt_le_dec target_payment (inject_Z minimum_payment));
      [reflexivity | lra]. }
  split; [exact Hwith|]. split.
  - intros fuel. apply Hwith.
  - intros fuel t n. unfold main. rewrite Hwith. cbn.
    intros [H|[H|[]]]; discriminate H.
Qed.

Lemma main_target_below_minimum_witness :
  (forall simulate,
     main_with simulate 10000 (3 # 100) 5 12 (Some 50)
     = ([MinimumPaymentLine 180; TargetTooLowLine], Returned)) /\
  (forall fuel : nat,
     main fuel 10000 (3 # 100) 5 12 (Some 50)
     = ([MinimumPaymentLine 180; TargetTooLowLine], Returned)) /\
  (forall (fuel : nat) (t : Q) (n : Z),
     ~ In (PayOffLine t n) (fst (main fuel 10000 (3 # 100) 5 12 (Some 50)))).
Proof.
  apply (main_target_below_minimum 10000 (3 # 100) 5 12 50 180);
    [vm_compute; reflexivity | reflexivity].
Defined.

(** ** The capped payment *)

(** The schedule with a target payment, one period unfolded. *)
Lemma schedule_target_step (fuel : nat) (b rate t : Q) (F : Z) :
  (1 <= F)%Z -> 0 < b ->
  schedule (S fuel) b rate (Some t) F =
  let i := b * (rate / inject_Z F) in
  let p := py_min t (b + i) in
  Period b i p (b - (p - i)) :: schedule fuel (b - (p - i)) rate (Some t) F.
Proof.
  intros HF Hb. cbn [schedule].
  destruct (Qlt_le_dec 0 b); [|lra].
  now rewrite pay_period_target.
Qed.

(** What [pay_period] returns, when it returns. *)
Lemma pay_period_target_inv (b rate t : Q) (F : Z) (p : period) :
  pay_period b rate (Some t) F = Ok p ->
  exists i : Q,
    interest_due b rate F = Ok i /\
    p = Period b i (py_min t (b + i)) (b - (py_min t (b + i) - i)).
Proof.
  unfold pay_period. intros Hp.
  destruct (interest_due b rate F) as [i|]; [|discriminate].
  cbn [bind] in Hp. injection Hp as <-. now exists i.
Qed.

(** In exact arithmetic: with a target payment, the payment of every period
    is [min(target_payment, balance + interest_due_value)], no payment exceeds
    the balance with its interest, the balance after a period is never
    negative, and when the cap applies the balance after the period is exactly
    zero.  (In binary64 a residue is left, see
    [capped_payment_leaves_residue].) *)
Lemma exact_target_payment_is_capped (fuel : nat) (balance annual_interest_rate : Q)
    (target_payment : Q) (num_annual_payments : Z) :
  Forall (fun p : period =>
            payment p
              = py_min target_payment (balance_before p + interest_due_value p) /\
            balance_after p
              = balance_before p - (payment p - interest_due_value p) /\
            payment p <= balance_before p + interest_due_value p /\
            0 <= balance_after p /\
            (balance_before p + interest_due_value p <= target_payment ->
             balance_after p == 0))
    (schedule fuel balance annual_interest_rate (Some target_payment)
       num_annual_payments).
Proof.
  revert balance. induction fuel as [|fuel IH]; intros balance;
    cbn [schedule]; [constructor|].
  destruct (Qlt_le_dec 0 balance); [|constructor].
  destruct (pay_period balance annual_interest_rate (Some target_payment)
              num_annual_payments) as [p|e] eqn:Hp; [|constructor].
  constructor; [|apply IH].
  apply pay_period_target_inv in Hp. destruct Hp as (i & _ & ->).
  cbn [payment balance_before interest_due_value balance_after].
  destruct (py_min_cases target_payment (balance + i)) as [[Hc ->]|[Hc ->]];
    repeat split; intros; lra.
Qed.

(** ** The balance goes down *)

(** The minimum payment for a balance exceeds the interest due on it. *)
Lemma min_payment_exceeds_interest (b rate : Q) (T F : Z) :
  0 < b -> 0 < rate -> (1 <= T)%Z -> (1 <= F)%Z ->
  exists m : Z,
    get_min_payment b rate T F = Ok m /\ b * (rate / inject_Z F) < inject_Z m.
Proof.
  intros Hb Hr HT HF. exists (Qceiling (amortizing_payment b rate T F)).
  split; [now apply get_min_payment_formula|].
  apply Qlt_le_trans with (amortizing_payment b rate T F); [|apply Qle_ceiling].
  unfold amortizing_payment.
  pose proof (period_rate_pos rate F Hr HF) as Hr'.
  pose proof (growth_gt_1 (rate / inject_Z F) (T * F) Hr' ltac:(nia)) as Hg.
  set (r := rate / inject_Z F) in *. set (x := (1 + r) ^ (T * F)) in *.
  apply Qlt_shift_div_l; [lra | nra].
Qed.

(** While the target payment exceeds the interest on the balance, every period
    pays more than its interest and lowers the balance. *)
Lemma schedule_decreases (rate t : Q) (F : Z) :
  0 <= rate -> (1 <= F)%Z ->
  forall (fuel : nat) (b : Q),
    b * (rate / inject_Z F) < t ->
    Forall (fun p : period =>
              interest_due_value p < payment p /\
              balance_after p < balance_before p)
      (schedule fuel b rate (Some t) F).
Proof.
  intros Hrate HF.
  assert (0 <= rate / inject_Z F) as Hr.
  { apply Qle_shift_div_l; [now apply inject_Z_pos | now rewrite Qmult_0_l]. }
  set (r := rate / inject_Z F) in *.
  induction fuel as [|fuel IH]; intros b Ht; [constructor|].
  destruct (Qlt_le_dec 0 b) as [Hb|Hb].
  - rewrite schedule_target_step by assumption. cbn zeta. fold r.
    destruct (py_min_cases t (b + b * r)) as [[Hc ->]|[Hc ->]].
    + constructor; [cbn; split; lra|]. apply IH. nra.
    + constructor; [cbn; split; lra|]. apply IH. nra.
  - cbn [schedule]. destruct (Qlt_le_dec 0 b); [lra | constructor].
Qed.

(** In exact arithmetic: in every period whose payment strictly exceeds the
    interest due, the balance strictly decreases; and when the target payment
    is at least the minimum payment computed for the same balance, rate and
    term, every period pays strictly more than its interest.  (In binary64
    neither holds, see [payment_above_interest_balance_stuck].) *)
Lemma exact_balance_strictly_decreases (balance annual_interest_rate : Q)
    (years num_annual_payments : Z) :
  0 < balance -> 0 < annual_interest_rate ->
  (1 <= years)%Z -> (1 <= num_annual_payments)%Z ->
  (forall (fuel : nat) (b rate : Q) (target : option Q) (F : Z),
     Forall (fun p : period =>
               interest_due_value p < payment p ->
               balance_after p < balance_before p)
       (schedule fuel b rate target F)) /\
  exists m : Z,
    get_min_payment balance annual_interest_rate years num_annual_payments
      = Ok m /\
    (forall (i pay : Q),
       interest_due balance annual_interest_rate num_annual_payments = Ok i ->
       inject_Z m <= pay -> i < pay) /\
    (forall (target_payment : Q) (fuel : nat),
       inject_Z m <= target_payment ->
       Forall (fun p : period =>
                 interest_due_value p < payment p /\
                 balance_after p < balance_before p)
         (schedule fuel balance annual_interest_rate (Some target_payment)
            num_annual_payments)).
Proof.
  intros Hb Hr HT HF. split.
  - intros fuel b rate target F. revert b.
    induction fuel as [|fuel IH]; intros b; cbn [schedule]; [constructor|].
    destruct (Qlt_le_dec 0 b); [|constructor].
    destruct (pay_period b rate target F) as [p|e] eqn:Hp; [|constructor].
    constructor; [|apply IH].
    unfold pay_period in Hp.
    destruct (interest_due b rate F) as [i|]; [|discriminate].
    cbn [bind] in Hp.
    destruct (match target with
              | Some t => Ok (py_min t (b + i))
              | None => _
              end) as [pay|]; [|discriminate].
    cbn [bind] in Hp. injection Hp as <-.
    cbn [payment balance_before interest_due_value balance_after]. intros. lra.
  - destruct (min_payment_exceeds_interest balance annual_interest_rate years
                num_annual_payments Hb Hr HT HF) as (m & Hm & Hlt).
    exists m. split; [exact Hm|]. split.
    + intros i pay Hi Hpay. rewrite interest_due_ok in Hi by exact HF.
      injection Hi as <-. lra.
    + intros t fuel Ht. apply schedule_decreases; [lra | exact HF | lra].
Qed.

(** A loan of 1000 at one half a year, paid 800 a year: 800, 800, and a last
    payment capped at the 375 still owed. *)
Example remaining_payments_three_payments :
  remaining_payments 5 1000 (1 # 2) (Some 800) 1 = Some (Ok 3%Z) /\
  Forall2 (fun (p : period) (pay : Q) => payment p == pay)
    (schedule 5 1000 (1 # 2) (Some 800) 1) [800; 800; 375].
Proof.
  split; [vm_compute; reflexivity|].
  repeat constructor.
Qed.

(** ** The scenario of the specification *)








(** ** The front end *)

(** C10: [parse_args] does not use its [arglist]: whatever list it is given,
    its result is the validation of what the parser reads from [sys.argv[1:]];
    and a target payment of exactly 0 is false as a truth value, so the test
    for a negative target payment is passed without the comparison and the
    arguments are accepted. *)
Theorem parse_args_ignores_arglist
    (parser_parse_args : list string -> result namespace)
    (sys_argv : list string) :
  (forall arglist arglist' : list string,
     parse_args parser_parse_args sys_argv arglist
     = parse_args parser_parse_args sys_argv arglist') /\
  (forall sys_argv' : list string,
     tl sys_argv' = tl sys_argv ->
     forall arglist arglist' : list string,
       parse_args parser_parse_args sys_argv' arglist
       = parse_args parser_parse_args sys_argv arglist') /\
  (forall t : Q, t == 0 -> truthy (Some t) = false) /\
  (forall (P rate t : Q) (T F : Z) (arglist : list string),
     parser_parse_args (tl sys_argv) = Ok (Namespace P rate T F (Some t)) ->
     0 <= P -> 0 <= rate -> rate <= 1 -> (1 <= T)%Z -> (0 <= F)%Z ->
     t == 0 ->
     parse_args parser_parse_args sys_argv arglist
     = Ok (Namespace P rate T F (Some t))).
Proof.
  split; [reflexivity|]. split; [|split].
  - intros sys_argv' Htl arglist arglist'. unfold parse_args. now rewrite Htl.
  - intros t Ht. cbn [truthy]. now rewrite (Qeq_eq_bool _ _ Ht).
  - intros P rate t T F arglist Hparse HP Hr0 Hr1 HT HF Ht.
    unfold parse_args. rewrite Hparse. cbn [bind].
    cbn [args_mortgage_amount args_annual_interest_rate args_years
         args_num_annual_payments args_target_payment truthy].
    unfold Qltb at 1. destruct (Qlt_le_dec P 0); [lra|].
    apply Qle_bool_iff in Hr0, Hr1. rewrite Hr0, Hr1. cbn [andb negb].
    replace (T <? 1)%Z with false by (symmetry; apply Z.ltb_ge; lia).
    replace (F <? 0)%Z with false by (symmetry; apply Z.ltb_ge; lia).
    now rewrite (Qeq_eq_bool _ _ Ht).
Qed.

Lemma parse_args_ignores_arglist_witness :
  parse_args (fun _ => Ok (Namespace 1000 (1 # 20) 30 12 (Some 0)))
    ["mortgage.py"; "1000"; "0.05"; "-p"; "0"]%string ["ignored"]%string
  = Ok (Namespace 1000 (1 # 20) 30 12 (Some 0)).
Proof.
  apply (proj2 (proj2 (proj2
           (parse_args_ignores_arglist
              (fun _ => Ok (Namespace 1000 (1 # 20) 30 12 (Some 0)))
              ["mortgage.py"; "1000"; "0.05"; "-p"; "0"]%string))));
    first [reflexivity | lia | discriminate].
Defined.

(** * Further properties of the code *)

(** ** Degenerate terms *)




(** ** Edge cases of the simulator *)

(** With nothing left to pay the loop is not entered. *)
Lemma remaining_payments_loop_paid (fuel : nat) (b rate : Q)
    (target : option Q) (F : Z) (cnt : Z) :
  b <= 0 -> remaining_payments_loop fuel b rate target F cnt = Some (Ok cnt).
Proof.
  intros Hb. destruct fuel; cbn [remaining_payments_loop];
    destruct (Qlt_le_dec 0 b); try reflexivity; lra.
Qed.

(** The count only goes up. *)
Lemma remaining_payments_loop_count_ge (fuel : nat) (b rate : Q)
    (target : option Q) (F : Z) (cnt k : Z) :
  remaining_payments_loop fuel b rate target F cnt = Some (Ok k) ->
  (cnt <= k)%Z.
Proof.
  intros H. apply remaining_payments_loop_counts in H. lia.
Qed.

(** X4: [remaining_payments] on a balance that is not positive returns 0 at
    once, whatever the rate, the target payment and the number of payments a
    year (zero included: nothing is divided); on a positive balance a count it
    returns is at least 1, and with 0 payments a year it raises
    [ZeroDivisionError] in the first period. *)
Theorem remaining_payments_edge_cases (balance annual_interest_rate : Q)
    (target_payment : option Q) (num_annual_payments : Z) :
  (balance <= 0 ->
   forall fuel : nat,
     remaining_payments fuel balance annual_interest_rate target_payment
       num_annual_payments = Some (Ok 0%Z)) /\
  (0 < balance ->
   forall (fuel : nat) (k : Z),
     remaining_payments fuel balance annual_interest_rate target_payment
       num_annual_payments = Some (Ok k) -> (1 <= k)%Z) /\
  (0 < balance ->
   forall fuel : nat,
     remaining_payments (S fuel) balance annual_interest_rate target_payment 0
     = Some (Raise ZeroDivisionError)).
Proof.
  split; [|split].
  - intros Hb fuel. now apply remaining_payments_loop_paid.
  - intros Hb fuel k. unfold remaining_payments.
    destruct fuel as [|fuel]; cbn [remaining_payments_loop];
      destruct (Qlt_le_dec 0 balance); try lra; [discriminate|].
    destruct (pay_period balance annual_interest_rate target_payment
                num_annual_payments); [|discriminate].
    intros H. apply remaining_payments_loop_count_ge in H. lia.
  - intros Hb fuel. unfold remaining_payments.
    cbn [remaining_payments_loop].
    destruct (Qlt_le_dec 0 balance); [reflexivity | lra].
Qed.

Lemma remaining_payments_edge_cases_witness :
  remaining_payments 0 (-5) (1 # 20) None 0 = Some (Ok 0%Z) /\
  remaining_payments 1 1000 (1 # 20) (Some 100) 0
  = Some (Raise ZeroDivisionError).
Proof.
  split.
  - apply (proj1 (remaining_payments_edge_cases (-5) (1 # 20) None 0)).
    discriminate.
  - apply (proj2 (proj2 (remaining_payments_edge_cases 1000 (1 # 20)
                           (Some 100) 0))).
    reflexivity.
Defined.

(** ** The validation of the arguments *)

(** The validation, check by check. *)
Lemma parse_args_checks (parser_parse_args : list string -> result namespace)
    (sys_argv arglist : list string) (args : namespace) :
  parser_parse_args (tl sys_argv) = Ok args ->
  parse_args parser_parse_args sys_argv arglist =
  if Qlt_le_dec (args_mortgage_amount args) 0 then
    Raise (ValueError "mortgage amount must be positive")
  else if Qlt_le_dec (args_annual_interest_rate args) 0 then
    Raise (ValueError "annual interest rate must be between 0 and 1")
  else if Qlt_le_dec 1 (args_annual_interest_rate args) then
    Raise (ValueError "annual interest rate must be between 0 and 1")
  else if Z_lt_dec (args_years args) 1 then
    Raise (ValueError "years must be positive")
  else if Z_lt_dec (args_num_annual_payments args) 0 then
    Raise (ValueError "number of payments per year must be positive")
  else match args_target_payment args with
       | Some t =>
           if Qlt_le_dec t 0 then
             Raise (ValueError "target payment must be positive")
           else Ok args
       | None => Ok args
       end.
Proof.
  intros Hparse. unfold parse_args. rewrite Hparse. cbn [bind].
  unfold Qltb.
  destruct (Qlt_le_dec (args_mortgage_amount args) 0); [reflexivity|].
  destruct (Qlt_le_dec (args_annual_interest_rate args) 0) as [H0|H0].
  { replace (Qle_bool 0 (args_annual_interest_rate args)) with false;
      [reflexivity|].
    symmetry. apply not_true_is_false. rewrite Qle_bool_iff. lra. }
  rewrite (proj2 (Qle_bool_iff _ _) H0).
  destruct (Qlt_le_dec 1 (args_annual_interest_rate args)) as [H1|H1].
  { replace (Qle_bool (args_annual_interest_rate args) 1) with false;
      [reflexivity|].
    symmetry. apply not_true_is_false. rewrite Qle_bool_iff. lra. }
  rewrite (proj2 (Qle_bool_iff _ _) H1). cbn [andb negb].
  destruct (Z_lt_dec (args_years args) 1) as [HT|HT].
  { now rewrite (proj2 (Z.ltb_lt _ _) HT). }
  rewrite (proj2 (Z.ltb_ge _ _)) by lia.
  destruct (Z_lt_dec (args_num_annual_payments args) 0) as [HF|HF].
  { now rewrite (proj2 (Z.ltb_lt _ _) HF). }
  rewrite (proj2 (Z.ltb_ge _ _)) by lia.
  destruct (args_target_payment args) as [t|]; [|reflexivity].
  cbn [truthy]. destruct (Qlt_le_dec t 0) as [Ht|Ht].
  - replace (Qeq_bool t 0) with false; [reflexivity|].
    symmetry. apply not_true_is_false. rewrite Qeq_bool_iff. lra.
  - now rewrite andb_false_r.
Qed.

(** X11: the checks of [parse_args] are made in a fixed order and the first
    one that fails decides the message of the [ValueError]: the amount, then
    the rate, then the years, then the payments a year, then the target
    payment.  What the parser itself raises goes through unchanged. *)
Theorem parse_args_first_failure
    (parser_parse_args : list string -> result namespace)
    (sys_argv arglist : list string) :
  (forall e : exn,
     parser_parse_args (tl sys_argv) = Raise e ->
     parse_args parser_parse_args sys_argv arglist = Raise e) /\
  (forall (P rate : Q) (T F : Z) (target : option Q),
     parser_parse_args (tl sys_argv) = Ok (Namespace P rate T F target) ->
     (P < 0 ->
      parse_args parser_parse_args sys_argv arglist
      = Raise (ValueError "mortgage amount must be positive")) /\
     (0 <= P -> rate < 0 \/ 1 < rate ->
      parse_args parser_parse_args sys_argv arglist
      = Raise (ValueError "annual interest rate must be between 0 and 1")) /\
     (0 <= P -> 0 <= rate -> rate <= 1 -> (T < 1)%Z ->
      parse_args parser_parse_args sys_argv arglist
      = Raise (ValueError "years must be positive")) /\
     (0 <= P -> 0 <= rate -> rate <= 1 -> (1 <= T)%Z -> (F < 0)%Z ->
      parse_args parser_parse_args sys_argv arglist
      = Raise (ValueError "number of payments per year must be positive")) /\
     (0 <= P -> 0 <= rate -> rate <= 1 -> (1 <= T)%Z -> (0 <= F)%Z ->
      forall t : Q,
        target = Some t -> t < 0 ->
        parse_args parser_parse_args sys_argv arglist
        = Raise (ValueError "target payment must be positive"))).
Proof.
  split.
  - intros e He. unfold parse_args. now rewrite He.
  - intros P rate T F target Hparse.
    rewrite (parse_args_checks _ _ _ _ Hparse).
    cbn [args_mortgage_amount args_annual_interest_rate args_years
         args_num_annual_payments args_target_payment].
    repeat split; intros;
      repeat match goal with
             | |- context [Qlt_le_dec ?a ?b] => destruct (Qlt_le_dec a b)
             | |- context [Z_lt_dec ?a ?b] => destruct (Z_lt_dec a b)
             | H : _ \/ _ |- _ => destruct H
             | H : target = Some _ |- _ => rewrite H
             end;
      try reflexivity; try lra; try lia.
Qed.

Lemma parse_args_first_failure_witness :
  parse_args (fun _ => Ok (Namespace (-1) 2 0 (-3) (Some (-5)))) [] []
  = Raise (ValueError "mortgage amount must be positive") /\
  parse_args (fun _ => Ok (Namespace 1 2 0 (-3) (Some (-5)))) [] []
  = Raise (ValueError "annual interest rate must be between 0 and 1") /\
  parse_args (fun _ => Ok (Namespace 1 1 1 0 (Some (-5)))) [] []
  = Raise (ValueError "target payment must be positive").
Proof.
  split; [|split].
  - apply (proj1 (proj2 (parse_args_first_failure
                           (fun _ => Ok (Namespace (-1) 2 0 (-3) (Some (-5))))
                           [] [])
                    (-1) 2 0%Z (-3)%Z (Some (-5)) eq_refl)).
    reflexivity.
  - apply (proj1 (proj2 (proj2 (parse_args_first_failure
                           (fun _ => Ok (Namespace 1 2 0 (-3) (Some (-5))))
                           [] [])
                    1 2 0%Z (-3)%Z (Some (-5)) eq_refl)));
      [discriminate | right; reflexivity].
  - apply (proj2 (proj2 (proj2 (proj2 (proj2 (parse_args_first_failure
                           (fun _ => Ok (Namespace 1 1 1 0 (Some (-5))))
                           [] [])
                    1 1 1%Z 0%Z (Some (-5)) eq_refl)))) ltac:(discriminate)
             ltac:(discriminate) ltac:(discriminate) ltac:(lia) ltac:(lia)
             (-5) eq_refl).
    reflexivity.
Defined.

(** * In binary64 *)

Import PrimFloat.

(** ** The loop in binary64 *)

(** More fuel does not change what the loop returns. *)
Lemma binary64_loop_fuel_mono (libm_pow : float -> float -> float)
    (rate : float) (target : option float) (F : Z) :
  forall (fuel extra : nat) (b : float) (cnt : Z) (v : Binary64.result Z),
    Binary64.remaining_payments_loop libm_pow fuel b rate target F cnt
      = Some v ->
    Binary64.remaining_payments_loop libm_pow (fuel + extra) b rate target F cnt
      = Some v.
Proof.
  induction fuel as [|fuel IH]; intros extra b cnt v Hrun.
  - cbn [Binary64.remaining_payments_loop] in Hrun.
    destruct (0 + extra)%nat; cbn [Binary64.remaining_payments_loop];
      destruct (0 <? b)%float; try discriminate; exact Hrun.
  - cbn [Nat.add Binary64.remaining_payments_loop] in *.
    destruct (0 <? b)%float; [|exact Hrun].
    destruct (Binary64.pay_period libm_pow b rate target F); [|exact Hrun].
    now apply IH.
Qed.

Lemma binary64_fuel_mono (libm_pow : float -> float -> float)
    (fuel extra : nat) (b rate : float) (target : option float) (F : Z)
    (v : Binary64.result Z) :
  Binary64.remaining_payments libm_pow fuel b rate target F = Some v ->
  Binary64.remaining_payments libm_pow (fuel + extra) b rate target F = Some v.
Proof.
  unfold Binary64.remaining_payments. apply binary64_loop_fuel_mono.
Qed.

(** A period that leaves a positive balance as it was repeats for ever. *)
Lemma binary64_loop_stuck (libm_pow : float -> float -> float)
    (b rate : float) (target : option float) (F : Z) (p : Binary64.period) :
  (0 <? b)%float = true ->
  Binary64.pay_period libm_pow b rate target F = Binary64.Ok p ->
  Binary64.balance_after p = b ->
  forall fuel : nat,
    Binary64.remaining_payments libm_pow fuel b rate target F = None.
Proof.
  intros Hpos Hp Hafter fuel. unfold Binary64.remaining_payments.
  generalize 0%Z as cnt.
  induction fuel as [|fuel IH]; intros cnt;
    cbn [Binary64.remaining_payments_loop]; rewrite Hpos; [reflexivity|].
  rewrite Hp, Hafter. apply IH.
Qed.

(** What [math.ceil] returns is the ceiling of the number the float stands
    for. *)
Lemma binary64_ceil_spec (v : float) (m : Z) :
  Binary64.ceil v = Binary64.Ok m ->
  exists q : Q, Binary64.float_value v = Some q /\ m = Qceiling q.
Proof.
  unfold Binary64.ceil, Binary64.float_value. intros H.
  destruct (FloatOps.Prim2SF v); try discriminate;
    injection H as <-; eexists; split; reflexivity.
Qed.

(** The value [get_min_payment] rounds up, when the power is given. *)
Lemma binary64_get_min_payment_eval (libm_pow : float -> float -> float)
    (P rate nf growth : float) (T F : Z) :
  Binary64.float_of_int F = Binary64.Ok nf ->
  (nf =? 0)%float = false ->
  Binary64.pow libm_pow (1 + rate / nf)%float (T * F) = Binary64.Ok growth ->
  (growth - 1 =? 0)%float = false ->
  Binary64.get_min_payment libm_pow P rate T F
  = Binary64.ceil (P * (rate / nf) * growth / (growth - 1))%float.
Proof.
  intros Hnf Hnz Hpow Hg. unfold Binary64.get_min_payment.
  rewrite Hnf. cbn [Binary64.bind]. unfold Binary64.truediv at 1.
  rewrite Hnz. cbn [Binary64.bind]. rewrite Hpow. cbn [Binary64.bind].
  unfold Binary64.truediv. rewrite Hg. reflexivity.
Qed.

(** [x ** n] where it is left to the C library. *)
Lemma binary64_pow_eval (libm_pow : float -> float -> float)
    (x y v : float) (n : Z) :
  Binary64.float_of_int n = Binary64.Ok y ->
  (y =? 0)%float = false -> is_nan x = false -> is_infinity x = false ->
  (x =? 0)%float = false -> (x <? 0)%float = false ->
  (abs x =? 1)%float = false ->
  libm_pow (abs x) y = v -> is_infinity v = false ->
  Binary64.pow libm_pow x n = Binary64.Ok v.
Proof.
  intros Hy Hy0 Hnan Hinf Hx0 Hneg H1 Hpow Hv. unfold Binary64.pow.
  rewrite Hy. cbn [Binary64.bind].
  rewrite Hy0, Hnan, Hinf, Hx0, Hneg, H1. cbn [andb].
  now rewrite Hpow, Hv.
Qed.

(** ** The minimum payment *)

(** C1, counterexample: for 1000 at the rate 2^-60 over one period,
    [1 + r] rounds to 1, the divisor is zero and [get_min_payment] raises
    [ZeroDivisionError] where the claim has it return; for 1000 at the rate
    0.1 over one period (a power of exponent one being its base) it returns
    1100, the ceiling of the binary64 value 1099.9999999999991, while the
    formula at these very inputs, the float 0.1 being slightly above one
    tenth, has the value 1100.000000000000005... and the ceiling 1101. *)
Lemma get_min_payment_not_exact_ceiling :
  (forall libm_pow : float -> float -> float,
     Binary64.get_min_payment libm_pow 1000 0x1p-60 1 1
     = Binary64.Raise Binary64.ZeroDivisionError) /\
  (forall libm_pow : float -> float -> float,
     libm_pow 0x1.199999999999ap+0%float 1%float = 0x1.199999999999ap+0%float ->
     Binary64.get_min_payment libm_pow 1000 0x1.999999999999ap-4 1 1
     = Binary64.Ok 1100%Z) /\
  (exists q : Q,
     Binary64.float_value 0x1.999999999999ap-4 = Some q /\
     q == 3602879701896397 # 36028797018963968 /\
     get_min_payment 1000 (3602879701896397 # 36028797018963968) 1 1
     = Ok 1101%Z).
Proof.
  split; [|split].
  - intros libm_pow. vm_compute. reflexivity.
  - intros libm_pow Hpow.
    rewrite (binary64_get_min_payment_eval libm_pow _ _ 1%float
               0x1.199999999999ap+0%float); try (vm_compute; reflexivity).
    apply (binary64_pow_eval libm_pow _ 1%float); try (vm_compute; reflexivity).
    exact Hpow.
  - eexists. split; [vm_compute; reflexivity|].
    split; vm_compute; reflexivity.
Qed.

(** C1: whenever [get_min_payment] returns, the integer it returns is
    [math.ceil] of the binary64 value [v] of
    [mortgage_amount * r * (1+r)**n / ((1+r)**n - 1)], with
    [r = annual_interest_rate / num_annual_payments] and
    [n = years * num_annual_payments], every operation rounded: the least
    integer that is not below [v], so neither its floor nor the nearest
    integer unless they coincide with the ceiling. *)
Theorem get_min_payment_binary64_ceiling (libm_pow : float -> float -> float)
    (mortgage_amount annual_interest_rate : float)
    (years num_annual_payments : Z) (m : Z) :
  Binary64.get_min_payment libm_pow mortgage_amount annual_interest_rate years
    num_annual_payments = Binary64.Ok m ->
  exists (nf r growth v : float) (q : Q),
    Binary64.float_of_int num_annual_payments = Binary64.Ok nf /\
    r = (annual_interest_rate / nf)%float /\
    Binary64.pow libm_pow (1 + r)%float (years * num_annual_payments)
      = Binary64.Ok growth /\
    v = (mortgage_amount * r * growth / (growth - 1))%float /\
    Binary64.float_value v = Some q /\
    m = Qceiling q /\
    q <= inject_Z m /\ inject_Z m < q + 1 /\
    (forall k : Z, q <= inject_Z k -> (m <= k)%Z).
Proof.
  unfold Binary64.get_min_payment. intros H.
  destruct (Binary64.float_of_int num_annual_payments) as [nf|] eqn:Hnf;
    [|discriminate].
  cbn [Binary64.bind] in H. unfold Binary64.truediv at 1 in H.
  destruct (nf =? 0)%float; [discriminate|]. cbn [Binary64.bind] in H.
  destruct (Binary64.pow libm_pow (1 + annual_interest_rate / nf)%float
              (years * num_annual_payments)) as [g|] eqn:Hg; [|discriminate].
  cbn [Binary64.bind] in H. unfold Binary64.truediv in H.
  destruct (g - 1 =? 0)%float; [discriminate|]. cbn [Binary64.bind] in H.
  apply binary64_ceil_spec in H. destruct H as (q & Hq & ->).
  exists nf, (annual_interest_rate / nf)%float, g,
    (mortgage_amount * (annual_interest_rate / nf) * g / (g - 1))%float, q.
  repeat split; try reflexivity; try assumption.
  - apply Qle_ceiling.
  - pose proof (Qceiling_lt q) as Hlt.
    unfold Z.sub in Hlt. rewrite inject_Z_plus, inject_Z_opp in Hlt.
    change (inject_Z 1) with 1 in Hlt. lra.
  - intros k Hk. apply Qceiling_resp_le in Hk. now rewrite Qceiling_Z in Hk.
Qed.

Lemma get_min_payment_binary64_ceiling_witness :
  exists (nf r growth v : float) (q : Q),
    Binary64.float_of_int 1 = Binary64.Ok nf /\
    r = (0.5 / nf)%float /\
    Binary64.pow (fun x _ => x) (1 + r)%float (1 * 1) = Binary64.Ok growth /\
    v = (1000 * r * growth / (growth - 1))%float /\
    Binary64.float_value v = Some q /\
    1500%Z = Qceiling q /\
    q <= inject_Z 1500 /\ inject_Z 1500 < q + 1 /\
    (forall k : Z, q <= inject_Z k -> (1500 <= k)%Z).
Proof.
  apply (get_min_payment_binary64_ceiling (fun x _ => x) 1000 0.5 1 1 1500).
  vm_compute. reflexivity.
Defined.

(** The powers assumed below are the exact powers, correctly rounded. *)
Example assumed_powers_are_correctly_rounded :
  FloatOps.SF2Prim
    (SpecFloat.binary_normalize FloatOps.prec FloatOps.emax
       (5254199565265579 ^ 3) (-52 * 3) false)
  = 0x1.9684bda12f686p+0%float /\
  FloatOps.Prim2SF 0x1.2aaaaaaaaaaabp+0
  = SpecFloat.S754_finite false 5254199565265579 (-52) /\
  FloatOps.SF2Prim
    (SpecFloat.binary_normalize FloatOps.prec FloatOps.emax
       (4878899596318037 ^ 3) (-52 * 3) false)
  = 0x1.457b425ed097ap+0%float /\
  FloatOps.Prim2SF 0x1.1555555555555p+0
  = SpecFloat.S754_finite false 4878899596318037 (-52) /\
  FloatOps.SF2Prim
    (SpecFloat.binary_normalize FloatOps.prec FloatOps.emax (3 ^ 100) (-100)
       false)
  = 0x1.69194f299cddap+58%float.
Proof.
  repeat split; vm_compute; reflexivity.
Qed.

(** ** The term *)

(** C2: with the power correctly rounded, the minimum payment for 1000 at the
    rate 0.5 over 1 year of 3 payments is 451, as in exact arithmetic; the
    loop run with exactly that payment does not end within the 3 periods of
    the term: the capped third payment leaves a residue and a fourth payment
    is counted, where exact arithmetic counts 3.  For 7 at the rate 0.25 over
    1 year of 3 payments the minimum payment is 3 and 23 payments are
    counted. *)
Theorem min_payment_overruns_term (libm_pow : float -> float -> float) :
  libm_pow 0x1.2aaaaaaaaaaabp+0%float 3%float = 0x1.9684bda12f686p+0%float ->
  libm_pow 0x1.1555555555555p+0%float 3%float = 0x1.457b425ed097ap+0%float ->
  (Binary64.get_min_payment libm_pow 1000 0.5 1 3 = Binary64.Ok 451%Z /\
   Binary64.remaining_payments libm_pow 3 1000 0.5 (Some 451%float) 3 = None /\
   (forall extra : nat,
      Binary64.remaining_payments libm_pow (4 + extra) 1000 0.5
        (Some 451%float) 3 = Some (Binary64.Ok 4%Z)) /\
   get_min_payment 1000 (1 # 2) 1 3 = Ok 451%Z /\
   remaining_payments 3 1000 (1 # 2) (Some 451) 3 = Some (Ok 3%Z)) /\
  (Binary64.get_min_payment libm_pow 7 0.25 1 3 = Binary64.Ok 3%Z /\
   Binary64.remaining_payments libm_pow 22 7 0.25 (Some 3%float) 3 = None /\
   (forall extra : nat,
      Binary64.remaining_payments libm_pow (23 + extra) 7 0.25
        (Some 3%float) 3 = Some (Binary64.Ok 23%Z)) /\
   get_min_payment 7 (1 # 4) 1 3 = Ok 3%Z /\
   remaining_payments 3 7 (1 # 4) (Some 3) 3 = Some (Ok 3%Z)).
Proof.
  intros Hpow1 Hpow2. split.
  - split; [|split; [|split; [|split]]].
    + rewrite (binary64_get_min_payment_eval libm_pow _ _ 3%float
                 0x1.9684bda12f686p+0%float); try (vm_compute; reflexivity).
      apply (binary64_pow_eval libm_pow _ 3%float);
        try (vm_compute; reflexivity).
      exact Hpow1.
    + vm_compute. reflexivity.
    + intros extra. apply binary64_fuel_mono. vm_compute. reflexivity.
    + vm_compute. reflexivity.
    + vm_compute. reflexivity.
  - split; [|split; [|split; [|split]]].
    + rewrite (binary64_get_min_payment_eval libm_pow _ _ 3%float
                 0x1.457b425ed097ap+0%float); try (vm_compute; reflexivity).
      apply (binary64_pow_eval libm_pow _ 3%float);
        try (vm_compute; reflexivity).
      exact Hpow2.
    + vm_compute. reflexivity.
    + intros extra. apply binary64_fuel_mono. vm_compute. reflexivity.
    + vm_compute. reflexivity.
    + vm_compute. reflexivity.
Qed.

Lemma min_payment_overruns_term_witness :
  Binary64.get_min_payment
    (fun x _ => if (x =? 0x1.2aaaaaaaaaaabp+0)%float
                then 0x1.9684bda12f686p+0%float
                else 0x1.457b425ed097ap+0%float) 1000 0.5 1 3
  = Binary64.Ok 451%Z /\
  Binary64.remaining_payments
    (fun x _ => if (x =? 0x1.2aaaaaaaaaaabp+0)%float
                then 0x1.9684bda12f686p+0%float
                else 0x1.457b425ed097ap+0%float) 4 1000 0.5 (Some 451%float) 3
  = Some (Binary64.Ok 4%Z).
Proof.
  destruct (min_payment_overruns_term
              (fun x _ => if (x =? 0x1.2aaaaaaaaaaabp+0)%float
                          then 0x1.9684bda12f686p+0%float
                          else 0x1.457b425ed097ap+0%float)
              ltac:(vm_compute; reflexivity) ltac:(vm_compute; reflexivity))
    as [(Hmin & _ & Hrun & _) _].
  split; [exact Hmin | exact (Hrun 0%nat)].
Defined.

(** ** The capped payment *)

(** C7: at the rate 0.05 paid once a year with a target payment of 2000, the
    capped payment on a balance of 1003 is the balance with its interest,
    1053.1500000000001, and leaves a balance of -2^-43: negative, not zero.
    On a balance of 1002 it leaves +2^-43, so the loop goes on and counts a
    second payment, where exact arithmetic counts one. *)
Theorem capped_payment_leaves_residue (libm_pow : float -> float -> float) :
  (Binary64.pay_period libm_pow 1003 0x1.999999999999ap-5 (Some 2000%float) 1
   = Binary64.Ok
       (Binary64.Period 1003 0x1.9133333333334p+5 0x1.074999999999ap+10
          (-0x1p-43)) /\
   (1003 + 0x1.9133333333334p+5 <? 2000)%float = true /\
   (1003 + 0x1.9133333333334p+5)%float = 0x1.074999999999ap+10%float /\
   (-0x1p-43 <? 0)%float = true) /\
  (Binary64.pay_period libm_pow 1002 0x1.999999999999ap-5 (Some 2000%float) 1
   = Binary64.Ok
       (Binary64.Period 1002 0x1.90ccccccccccdp+5 0x1.0706666666666p+10
          0x1p-43) /\
   (1002 + 0x1.90ccccccccccdp+5 <? 2000)%float = true /\
   (0 <? 0x1p-43)%float = true /\
   Binary64.remaining_payments libm_pow 1 1002 0x1.999999999999ap-5
     (Some 2000%float) 1 = None /\
   (forall extra : nat,
      Binary64.remaining_payments libm_pow (2 + extra) 1002
        0x1.999999999999ap-5 (Some 2000%float) 1 = Some (Binary64.Ok 2%Z))) /\
  (exists q : Q,
     Binary64.float_value 0x1.999999999999ap-5 = Some q /\
     q == 3602879701896397 # 72057594037927936 /\
     remaining_payments 1 1002 (3602879701896397 # 72057594037927936)
       (Some 2000) 1 = Some (Ok 1%Z)).
Proof.
  split; [|split].
  - repeat split; vm_compute; reflexivity.
  - split; [|split; [|split; [|split]]]; try (vm_compute; reflexivity).
    intros extra. apply binary64_fuel_mono. vm_compute. reflexivity.
  - eexists. split; [vm_compute; reflexivity|].
    split; vm_compute; reflexivity.
Qed.

(** ** The balance that does not go down *)

(** C8: on a balance of 200000 at the rate 0.05 paid 12 times a year, a target
    payment of 833.3333333333335, the float next above the interest due,
    strictly exceeds the interest, and the balance after the period is
    200000 again: it does not decrease, and the loop never ends.  And with the
    power correctly rounded, the minimum payment for 1024 at the rate 0.5 over
    100 years of one payment is 512, which is the interest due on 1024: a
    payment at least the minimum does not exceed the interest, and the loop
    run with it never ends. *)
Theorem payment_above_interest_balance_stuck
    (libm_pow : float -> float -> float) :
  libm_pow 1.5%float 100%float = 0x1.69194f299cddap+58%float ->
  (Binary64.pay_period libm_pow 200000 0x1.999999999999ap-5
     (Some 0x1.a0aaaaaaaaaacp+9%float) 12
   = Binary64.Ok
       (Binary64.Period 200000 0x1.a0aaaaaaaaaabp+9 0x1.a0aaaaaaaaaacp+9
          200000) /\
   (0x1.a0aaaaaaaaaabp+9 <? 0x1.a0aaaaaaaaaacp+9)%float = true /\
   forall fuel : nat,
     Binary64.remaining_payments libm_pow fuel 200000 0x1.999999999999ap-5
       (Some 0x1.a0aaaaaaaaaacp+9%float) 12 = None) /\
  (Binary64.get_min_payment libm_pow 1024 0.5 100 1 = Binary64.Ok 512%Z /\
   Binary64.interest_due 1024 0.5 1 = Binary64.Ok 512%float /\
   forall fuel : nat,
     Binary64.remaining_payments libm_pow fuel 1024 0.5 (Some 512%float) 1
     = None).
Proof.
  intros Hpow. split.
  - split; [vm_compute; reflexivity|]. split; [vm_compute; reflexivity|].
    apply (binary64_loop_stuck libm_pow _ _ _ _
             (Binary64.Period 200000 0x1.a0aaaaaaaaaabp+9 0x1.a0aaaaaaaaaacp+9
                200000)); vm_compute; reflexivity.
  - split; [|split].
    + rewrite (binary64_get_min_payment_eval libm_pow _ _ 1%float
                 0x1.69194f299cddap+58%float); try (vm_compute; reflexivity).
      apply (binary64_pow_eval libm_pow _ 100%float);
        try (vm_compute; reflexivity).
      exact Hpow.
    + vm_compute. reflexivity.
    + apply (binary64_loop_stuck libm_pow _ _ _ _
               (Binary64.Period 1024 512 512 1024)); vm_compute; reflexivity.
Qed.

Lemma payment_above_interest_balance_stuck_witness :
  Binary64.get_min_payment (fun _ _ => 0x1.69194f299cddap+58%float)
    1024 0.5 100 1 = Binary64.Ok 512%Z /\
  Binary64.interest_due 1024 0.5 1 = Binary64.Ok 512%float /\
  Binary64.remaining_payments (fun _ _ => 0x1.69194f299cddap+58%float)
    50 1024 0.5 (Some 512%float) 1 = None.
Proof.
  destruct (payment_above_interest_balance_stuck
              (fun _ _ => 0x1.69194f299cddap+58%float) eq_refl)
    as [_ (Hmin & Hdue & Hrun)].
  split; [exact Hmin|]. split; [exact Hdue | exact (Hrun 50%nat)].
Defined.
